(** * IAboy: the web front end and the Session Control Core

    Part I embeds the code: the chat panel ([frontend/src/ui/chat.js]),
    the application shell ([frontend/src/ui/app.js]), the game panel
    ([frontend/src/ui/game.js]) with the select and the canvas it
    drives, and the page as [frontend/src/main.js] loads it.  Part II
    states and proves the properties. *)

From stdpp Require Import base gmap strings list fin_maps sets.
From Stdlib Require Import ZArith NArith Lia.

Set Warnings "-register-all".

(* ===================================================================== *)
(** * Part I. Definitions                                                 *)
(* ===================================================================== *)

(** ** JavaScript values *)

Module Js.

(** A JavaScript string is a sequence of UTF-16 code units. *)
Definition jsstring := list N.

(** An ASCII literal of the source as a JavaScript string. *)
Definition lit (s : string) : jsstring :=
  map Ascii.N_of_ascii (String.list_ascii_of_string s).

(** The values that cross the panels: what a text field holds, what a
    JSON body parses to, what a property read returns.  Numbers are the
    integral ones; an object is its list of own properties. *)
Inductive JsVal :=
| JUndefined
| JNull
| JBool (b : bool)
| JNum (n : Z)
| JStr (s : jsstring)
| JArr (items : list JsVal)
| JObj (fields : list (string * JsVal)).

(** ToBoolean: [undefined], [null], [false], [0] and the empty string are
    falsy, every object is truthy. *)
Definition truthy (v : JsVal) : bool :=
  match v with
  | JUndefined | JNull => false
  | JBool b => b
  | JNum n => negb (n =? 0)%Z
  | JStr s => match s with [] => false | _ => true end
  | JArr _ | JObj _ => true
  end.

Fixpoint own_prop (fields : list (string * JsVal)) (k : string) : JsVal :=
  match fields with
  | [] => JUndefined
  | (k', v) :: rest => if String.eqb k' k then v else own_prop rest k
  end.

(** [v.k] for the property names the panels read ([data], [reply],
    [session_id], [sessionId]; none of them is a built-in property of a
    string, a number or an array).  Reading a property of [undefined] or
    [null] throws a TypeError: [None]. *)
Definition get_prop (v : JsVal) (k : string) : option JsVal :=
  match v with
  | JUndefined | JNull => None
  | JObj fields => Some (own_prop fields k)
  | _ => Some JUndefined
  end.

(** [a ?? b] *)
Definition nullish (a b : JsVal) : JsVal :=
  match a with
  | JUndefined | JNull => b
  | _ => a
  end.

(** Whether an object has an own property named [k]. *)
Definition has_own_prop (fields : list (string * JsVal)) (k : string) : bool :=
  existsb (λ kv, String.eqb (fst kv) k) fields.

(** Whether ToString returns: a template literal [`${v}`] and a DOM
    string attribute throw a TypeError otherwise.  A primitive always
    converts.  An array joins its elements, [undefined] and [null] as
    the empty string, the others converted in turn.  A parsed object
    converts, through [Object.prototype.toString], unless it has an own
    property [toString]: that one, not being a function, is passed
    over, and [valueOf] then yields no primitive. *)
Fixpoint convertible (v : JsVal) : bool :=
  match v with
  | JArr items => forallb convertible items
  | JObj fields => negb (has_own_prop fields "toString")
  | _ => true
  end.

(** WhiteSpace and LineTerminator code units of ECMAScript, the ones
    [String.prototype.trim] strips. *)
Definition is_whitespace (c : N) : bool :=
  ((c =? 9) || (c =? 10) || (c =? 11) || (c =? 12) || (c =? 13) ||
   (c =? 32) || (c =? 160) || (c =? 5760) ||
   ((8192 <=? c) && (c <=? 8202)) ||
   (c =? 8232) || (c =? 8233) || (c =? 8239) || (c =? 8287) ||
   (c =? 12288) || (c =? 65279))%N.

Fixpoint trimStart (s : jsstring) : jsstring :=
  match s with
  | [] => []
  | c :: rest => if is_whitespace c then trimStart rest else s
  end.

Definition trimEnd (s : jsstring) : jsstring :=
  rev (trimStart (rev s)).

Definition trim (s : jsstring) : jsstring := trimEnd (trimStart s).

(** How an awaited [axios] call settles: fulfilled with a response whose
    [data] is the parsed body, or rejected with an error whose [message]
    is shown. *)
Inductive Settled :=
| Fulfilled (data : JsVal)
| Rejected (message : JsVal).

(** The message an error caught by a handler carries: the one of the
    rejected request, or the one of the TypeError that the [try] block
    of the handler itself threw, on a property read or on a string
    conversion. *)
Inductive ErrorMessage :=
| RequestError (message : JsVal)
| TypeError.

(** [s.split(sep)] for a separator of one code unit: the pieces between
    the occurrences of [sep]; the empty string gives one empty piece. *)
Fixpoint split (sep : N) (s : jsstring) : list jsstring :=
  match s with
  | [] => [[]]
  | c :: rest =>
      if (c =? sep)%N then [] :: split sep rest
      else
        match split sep rest with
        | piece :: pieces => (c :: piece) :: pieces
        | [] => [[c]]
        end
  end.

(** [pieces.join(sep)] *)
Fixpoint join (sep : N) (pieces : list jsstring) : jsstring :=
  match pieces with
  | [] => []
  | [piece] => piece
  | piece :: rest => piece ++ sep :: join sep rest
  end.

End Js.

(** ** The chat panel: [createChatPanel] of chat.js *)

Module Chat.
Import Js.

(** An entry of [conversation]: [{ role, content }]. *)
Record Message := { role : string; content : JsVal }.

(** A paragraph that [appendMessage] adds to [messagesList], by the
    call that adds it. *)
Inductive Paragraph :=
| InfoStart                        (* "Inicia un juego para activar ..." *)
| InfoReady                        (* "La sesion esta lista para conversar." *)
| UserSaid (text : jsstring)       (* the user's message *)
| BotSaid (reply : JsVal)          (* the reply *)
| ContactError (e : ErrorMessage). (* "Error al contactar a Gemma: ..." *)

(** The closure of [createChatPanel]: its two [let] variables, and the
    DOM it owns. *)
Record Panel := {
  conversation : list Message;
  sessionId : JsVal;
  textarea_value : jsstring;
  messagesList : list Paragraph
}.

(** The body the submit handler posts to [/api/sessions/${sessionId}/chat]. *)
Record ChatRequest := {
  chat_session : JsVal;
  messages : list Message
}.

Definition appendMessage (p : Paragraph) (st : Panel) : Panel :=
  {| conversation := conversation st;
     sessionId := sessionId st;
     textarea_value := textarea_value st;
     messagesList := messagesList st ++ [p] |}.

(** The panel as [createChatPanel] returns it. *)
Definition createChatPanel : Panel :=
  appendMessage InfoStart
    {| conversation := []; sessionId := JNull;
       textarea_value := []; messagesList := [] |}.

(** The submit handler up to its [await]: the guard, the user turn, the
    request.  The second component is the request it issues, if any:
    the URL is built from [`${sessionId}`] inside the [try] block, so
    with a session id that has no string conversion the [catch] block
    runs at once and nothing is sent. *)
Definition submit (st : Panel) : Panel * option ChatRequest :=
  if negb (truthy (JStr (trim (textarea_value st)))) || negb (truthy (sessionId st))
  then (st, None)
  else
    let userMessage :=
      {| role := "user"; content := JStr (trim (textarea_value st)) |} in
    let conversation' := conversation st ++ [userMessage] in
    let st1 :=
      appendMessage (UserSaid (trim (textarea_value st)))
        {| conversation := conversation';
           sessionId := sessionId st;
           textarea_value := textarea_value st;
           messagesList := messagesList st |} in
    let st2 :=
      {| conversation := conversation st1;
         sessionId := sessionId st1;
         textarea_value := [];
         messagesList := messagesList st1 |} in
    if convertible (sessionId st)
    then (st2, Some {| chat_session := sessionId st; messages := conversation' |})
    else (appendMessage (ContactError TypeError) st2, None).

(** The submit handler from its [await] on, run when the request
    settles: the rest of the [try] block, or the [catch] block.  The
    assistant turn is stored before [appendMessage] converts the reply
    to a string; when that throws, the [catch] block renders the error
    instead.  The [catch] block converts [error.message] itself: when
    that throws, nothing is rendered. *)
Definition settle (r : Settled) (st : Panel) : Panel :=
  match r with
  | Fulfilled data =>
      match get_prop data "reply" with
      | Some v =>
          let reply := nullish v (JStr []) in
          let st1 :=
            {| conversation :=
                 conversation st ++ [{| role := "assistant"; content := reply |}];
               sessionId := sessionId st;
               textarea_value := textarea_value st;
               messagesList := messagesList st |} in
          if convertible reply then appendMessage (BotSaid reply) st1
          else appendMessage (ContactError TypeError) st1
      | None => appendMessage (ContactError TypeError) st
      end
  | Rejected message =>
      if convertible message
      then appendMessage (ContactError (RequestError message)) st
      else st
  end.

(** [section.updateSession] *)
Definition updateSession (id : JsVal) (st : Panel) : Panel :=
  appendMessage InfoReady
    {| conversation := [];
       sessionId := id;
       textarea_value := textarea_value st;
       messagesList := [] |}.

(** What can happen to a panel: the user edits the text, submits the
    form, a pending request settles, the application rebinds the panel. *)
Inductive Event :=
| Input (text : jsstring)
| Submit
| Settle (r : Settled)
| UpdateSession (id : JsVal).

Definition handle (e : Event) (st : Panel) : Panel * option ChatRequest :=
  match e with
  | Input text =>
      ({| conversation := conversation st;
          sessionId := sessionId st;
          textarea_value := text;
          messagesList := messagesList st |}, None)
  | Submit => submit st
  | Settle r => (settle r st, None)
  | UpdateSession id => (updateSession id st, None)
  end.

(** A run of events, with the requests it issues in order. *)
Fixpoint run (es : list Event) (st : Panel) : Panel * list ChatRequest :=
  match es with
  | [] => (st, [])
  | e :: rest =>
      let '(st1, req) := handle e st in
      let '(st2, reqs) := run rest st1 in
      (st2, match req with Some q => q :: reqs | None => reqs end)
  end.

(** Whether an event is the rebinding of the panel. *)
Definition is_rebinding (e : Event) : bool :=
  match e with
  | UpdateSession _ => true
  | _ => false
  end.




End Chat.

(** ** The application shell: [createApp] of app.js *)

Module App.
Import Js.

(** The [session-started] listener: [event.detail ?? {}] is destructured
    for [sessionId], and the chat panel is rebound to it. *)
Definition on_session_started (detail : JsVal) (chat : Chat.Panel) : Chat.Panel :=
  match get_prop (nullish detail (JObj [])) "sessionId" with
  | Some sessionId => Chat.updateSession sessionId chat
  | None => chat
  end.

End App.

(** ** The DOM under the game panel: a select with its options, a 2D
       canvas context *)

Module Dom.
Import Js.

(** ASCII whitespace of the HTML standard. *)
Definition is_ascii_whitespace (c : N) : bool :=
  ((c =? 9) || (c =? 10) || (c =? 12) || (c =? 13) || (c =? 32))%N.

(** Every run of ASCII whitespace becomes one space; [in_run] tells that
    the unit before was whitespace. *)
Fixpoint collapse (in_run : bool) (s : jsstring) : jsstring :=
  match s with
  | [] => []
  | c :: rest =>
      if is_ascii_whitespace c
      then if in_run then collapse true rest else 32%N :: collapse true rest
      else c :: collapse false rest
  end.

Fixpoint strip_leading (s : jsstring) : jsstring :=
  match s with
  | [] => []
  | c :: rest => if is_ascii_whitespace c then strip_leading rest else s
  end.

(** Strip and collapse ASCII whitespace: what the [text] of an option is
    made of. *)
Definition strip_and_collapse (s : jsstring) : jsstring :=
  rev (strip_leading (rev (strip_leading (collapse false s)))).

(** An [option] element: its [value] attribute, when one was set, and
    its text content. *)
Record OptionEl := {
  value_attr : option jsstring;
  textContent : jsstring
}.

(** [option.value]: the attribute, or the text when there is none. *)
Definition option_value (o : OptionEl) : jsstring :=
  match value_attr o with
  | Some v => v
  | None => strip_and_collapse (textContent o)
  end.

(** A [select] that shows one option at a time: its options in tree
    order and the index of the selected one. *)
Record SelectEl := {
  options : list OptionEl;
  selectedIndex : option nat
}.

Definition empty_select : SelectEl :=
  {| options := []; selectedIndex := None |}.

(** [select.innerHTML] set to the empty string *)
Definition remove_options (sel : SelectEl) : SelectEl := empty_select.

(** [select.appendChild(option)]: when no option is selected, the first
    one becomes selected. *)
Definition appendChild (o : OptionEl) (sel : SelectEl) : SelectEl :=
  {| options := options sel ++ [o];
     selectedIndex :=
       match selectedIndex sel with
       | Some i => Some i
       | None => Some 0%nat
       end |}.

(** [select.value]: the value of the selected option, the empty string
    when there is none. *)
Definition value (sel : SelectEl) : jsstring :=
  match selectedIndex sel with
  | Some i =>
      match options sel !! i with
      | Some o => option_value o
      | None => []
      end
  | None => []
  end.

(** A call on a [CanvasRenderingContext2D], or an assignment to one of
    its properties. *)
Inductive CanvasOp :=
| SetFillStyle (color : string)
| FillRect (x y w h : Z)
| SetFont (font : string)
| FillText (text : jsstring) (x y : Z).

End Dom.

(** ** The game panel: [createGamePanel] of game.js *)

Module Game.
Import Js.

(** The text of the [status] paragraph, by the assignment that wrote it. *)
Inductive Status :=
| NoSession                           (* "Sin sesion activa" *)
| ActiveSession (gameId : jsstring)   (* "Sesion activa: ${gameId}" *)
| StartFailed (e : ErrorMessage)      (* "Error al iniciar: ..." *)
| StepFailed (e : ErrorMessage).      (* "Error al avanzar: ..." *)

(** The text that [drawText] was last called with, by the call. *)
Inductive Canvas :=
| Welcome                             (* "Selecciona un juego y presiona ..." *)
| StepSummary (action_taken reward observation : JsVal).

(** The closure of [createGamePanel]: its two [let] variables and the
    DOM it owns ([select.value], the status line, the step button, and
    for the canvas the last call of [drawText] on it). *)
Record Panel := {
  sessionId : JsVal;
  useAi : bool;
  select_value : jsstring;
  status : Status;
  stepButton_disabled : bool;
  canvas : Canvas
}.

(** The HTTP requests of the panel, with their bodies. *)
Inductive Request :=
| GetGames                                          (* GET /api/games *)
| PostSessions (game_id : jsstring) (mode : string) (* POST /api/sessions *)
| PostStep (session : JsVal) (use_ai : bool).       (* POST /api/sessions/${sessionId}/step *)

(** What a handler sends out: a request, or the [session-started] event
    with its [detail.sessionId]. *)
Inductive Effect :=
| Http (q : Request)
| SessionStarted (sessionId : JsVal).

(** The panel as [createGamePanel] returns it; [fetchGames] has issued
    its request. *)
Definition createGamePanel : Panel * list Effect :=
  ({| sessionId := JNull; useAi := false; select_value := [];
      status := NoSession; stepButton_disabled := true;
      canvas := Welcome |},
   [Http GetGames]).

(** The [change] listener of the checkbox: [useAi = event.target.checked]. *)
Definition aiToggle_change (checked : bool) (st : Panel) : Panel :=
  {| sessionId := sessionId st; useAi := checked;
     select_value := select_value st; status := status st;
     stepButton_disabled := stepButton_disabled st; canvas := canvas st |}.

(** The [click] listener of [startButton] up to its [await]. *)
Definition startButton_click (st : Panel) : Panel * list Effect :=
  let gameId := select_value st in
  if negb (truthy (JStr gameId)) then (st, [])
  else (st, [Http (PostSessions gameId "coop")]).

(** The [click] listener of [startButton] from its [await] on; [gameId]
    is the constant the listener captured before the request.  When the
    [catch] block cannot convert [error.message], the status stays. *)
Definition startButton_settle (gameId : jsstring) (r : Settled) (st : Panel)
  : Panel * list Effect :=
  match r with
  | Fulfilled data =>
      match get_prop data "session_id" with
      | Some sid =>
          ({| sessionId := sid; useAi := useAi st;
              select_value := select_value st;
              status := ActiveSession gameId;
              stepButton_disabled := false; canvas := canvas st |},
           [SessionStarted sid])
      | None =>
          ({| sessionId := sessionId st; useAi := useAi st;
              select_value := select_value st;
              status := StartFailed TypeError;
              stepButton_disabled := stepButton_disabled st;
              canvas := canvas st |}, [])
      end
  | Rejected message =>
      if convertible message
      then
        ({| sessionId := sessionId st; useAi := useAi st;
            select_value := select_value st;
            status := StartFailed (RequestError message);
            stepButton_disabled := stepButton_disabled st;
            canvas := canvas st |}, [])
      else (st, [])
  end.

(** The [click] listener of [stepButton] up to its [await].  The URL
    is built from [`${sessionId}`] inside the [try] block: with a
    session id that has no string conversion the [catch] block runs at
    once and nothing is sent. *)
Definition stepButton_click (st : Panel) : Panel * list Effect :=
  if negb (truthy (sessionId st)) then (st, [])
  else if convertible (sessionId st)
  then (st, [Http (PostStep (sessionId st) (useAi st))])
  else
    ({| sessionId := sessionId st; useAi := useAi st;
        select_value := select_value st;
        status := StepFailed TypeError;
        stepButton_disabled := stepButton_disabled st;
        canvas := canvas st |}, []).

(** The [click] listener of [stepButton] from its [await] on.
    Destructuring [response.data] throws when it is [undefined] or
    [null]; the template literal passed to [drawText] throws when one of
    the three values has no string conversion; in both cases [drawText]
    is not called.  When the [catch] block cannot convert
    [error.message], the status stays. *)
Definition stepButton_settle (r : Settled) (st : Panel) : Panel * list Effect :=
  match r with
  | Fulfilled data =>
      match get_prop data "observation", get_prop data "reward",
            get_prop data "action_taken" with
      | Some observation, Some reward, Some action_taken =>
          if convertible action_taken && convertible reward &&
             convertible observation
          then
            ({| sessionId := sessionId st; useAi := useAi st;
                select_value := select_value st; status := status st;
                stepButton_disabled := stepButton_disabled st;
                canvas := StepSummary action_taken reward observation |}, [])
          else
            ({| sessionId := sessionId st; useAi := useAi st;
                select_value := select_value st;
                status := StepFailed TypeError;
                stepButton_disabled := stepButton_disabled st;
                canvas := canvas st |}, [])
      | _, _, _ =>
          ({| sessionId := sessionId st; useAi := useAi st;
              select_value := select_value st;
              status := StepFailed TypeError;
              stepButton_disabled := stepButton_disabled st;
              canvas := canvas st |}, [])
      end
  | Rejected message =>
      if convertible message
      then
        ({| sessionId := sessionId st; useAi := useAi st;
            select_value := select_value st;
            status := StepFailed (RequestError message);
            stepButton_disabled := stepButton_disabled st;
            canvas := canvas st |}, [])
      else (st, [])
  end.

(** What can happen to the panel.  [Select v]: the value of the select
    becomes [v], because [fetchGames] filled it or the user picked an
    option. *)
Inductive Event :=
| Toggle (checked : bool)
| Select (value : jsstring)
| StartClick
| StartSettle (gameId : jsstring) (r : Settled)
| StepClick
| StepSettle (r : Settled).

Definition handle (e : Event) (st : Panel) : Panel * list Effect :=
  match e with
  | Toggle checked => (aiToggle_change checked st, [])
  | Select value =>
      ({| sessionId := sessionId st; useAi := useAi st;
          select_value := value; status := status st;
          stepButton_disabled := stepButton_disabled st;
          canvas := canvas st |}, [])
  | StartClick => startButton_click st
  | StartSettle gameId r => startButton_settle gameId r st
  | StepClick => stepButton_click st
  | StepSettle r => stepButton_settle r st
  end.

Fixpoint run (es : list Event) (st : Panel) : Panel * list Effect :=
  match es with
  | [] => (st, [])
  | e :: rest =>
      let '(st1, out1) := handle e st in
      let '(st2, out2) := run rest st1 in
      (st2, out1 ++ out2)
  end.

(** A run with the checkbox events left out. *)
Definition is_toggle (e : Event) : bool :=
  match e with Toggle _ => true | _ => false end.

Definition without_toggles (es : list Event) : list Event :=
  List.filter (λ e, negb (is_toggle e)) es.

(** An effect with the [use_ai] field of a step request left out. *)
Definition forget_use_ai (o : Effect) : Effect :=
  match o with
  | Http (PostStep session _) => Http (PostStep session false)
  | _ => o
  end.

(** A panel with [useAi] left out. *)
Definition forget_useAi (st : Panel) : Panel := aiToggle_change false st.

(** The [mode] fields of the session-creation requests among effects. *)
Fixpoint session_modes (out : list Effect) : list string :=
  match out with
  | [] => []
  | Http (PostSessions _ mode) :: rest => mode :: session_modes rest
  | _ :: rest => session_modes rest
  end.

(** The [use_ai] fields of the step requests among effects. *)
Fixpoint step_use_ai (out : list Effect) : list bool :=
  match out with
  | [] => []
  | Http (PostStep _ use_ai) :: rest => use_ai :: step_use_ai rest
  | _ :: rest => step_use_ai rest
  end.

(** *** [fetchGames] and [drawText] *)

(** The option of the [catch] block of [fetchGames]: a text and no
    [value]. *)
Definition error_option : Dom.OptionEl :=
  {| Dom.value_attr := None;
     Dom.textContent := lit "Error al cargar juegos" |}.

(** [response.data.games], when [forEach] can be called on it: reading
    [games] of [undefined] or [null] throws, and so does calling
    [forEach] on anything but an array. *)
Definition games_of (data : JsVal) : option (list JsVal) :=
  match get_prop data "games" with
  | Some (JArr items) => Some items
  | _ => None
  end.

(** [text.split("\n")] drawn by [drawText]: one [fillText] for each
    line, [index] counting from 0.  Without a context nothing happens. *)
Definition drawText (context : option (list Dom.CanvasOp)) (width height : Z)
    (text : jsstring) : option (list Dom.CanvasOp) :=
  match context with
  | None => None
  | Some calls =>
      Some (calls ++
            [Dom.SetFillStyle "#0b0c10"; Dom.FillRect 0 0 width height;
             Dom.SetFillStyle "#66fcf1"; Dom.SetFont "16px monospace"] ++
            imap (λ index line,
                    Dom.FillText line 12 (28 + Z.of_nat index * 22))
                 (split 10 text))
  end.

(** The [fillText] calls among the calls on a context. *)
Fixpoint fillTexts (calls : list Dom.CanvasOp) : list (jsstring * Z * Z) :=
  match calls with
  | [] => []
  | Dom.FillText text x y :: rest => (text, x, y) :: fillTexts rest
  | _ :: rest => fillTexts rest
  end.

Section Strings.

(** The string that a value other than a string converts to, when it
    converts: the digits of a number, the name of a boolean, the joined
    elements of an array, and so on. *)
Variable show : JsVal → jsstring.

(** ToString, as a template literal and a DOM string attribute apply
    it; [None] when it throws. *)
Definition ToString (v : JsVal) : option jsstring :=
  if convertible v
  then Some match v with
            | JStr s => s
            | _ => show v
            end
  else None.

(** The option that the [forEach] callback of [fetchGames] builds.
    [option.value = gameId] throws for an id with no string conversion:
    [None].  Assigning [null] to [textContent] leaves the text empty. *)
Definition game_option (gameId : JsVal) : option Dom.OptionEl :=
  match ToString gameId with
  | Some s =>
      Some {| Dom.value_attr := Some s;
              Dom.textContent :=
                match gameId with
                | JUndefined | JNull => []
                | _ => s
                end |}
  | None => None
  end.

(** [games.forEach(...)] of [fetchGames]: one option appended for each
    id, up to the first id that makes the callback throw.  The second
    component tells whether the loop came to its end. *)
Fixpoint forEach_game (games : list JsVal) (select : Dom.SelectEl)
  : Dom.SelectEl * bool :=
  match games with
  | [] => (select, true)
  | gameId :: rest =>
      match game_option gameId with
      | Some option => forEach_game rest (Dom.appendChild option select)
      | None => (select, false)
      end
  end.

(** [fetchGames] from its [await] on.  The select is emptied before
    [response.data.games] is read; whatever throws in the [try] block,
    the [catch] block appends its option to the select as it is then. *)
Definition fetchGames_settle (r : Settled) (select : Dom.SelectEl)
  : Dom.SelectEl :=
  match r with
  | Fulfilled data =>
      let select1 := Dom.remove_options select in
      match games_of data with
      | Some games =>
          let '(select2, finished) := forEach_game games select1 in
          if finished then select2 else Dom.appendChild error_option select2
      | None => Dom.appendChild error_option select1
      end
  | Rejected _ => Dom.appendChild error_option select
  end.

(** What the select of a new panel reports once the request of
    [fetchGames] has settled. *)
Definition games_loaded (r : Settled) : Event :=
  Select (Dom.value (fetchGames_settle r Dom.empty_select)).

(** The text of a call of [drawText]; [None] when the template literal
    that builds it throws. *)
Definition canvas_text (c : Canvas) : option jsstring :=
  match c with
  | Welcome => Some (lit "Selecciona un juego y presiona Iniciar para comenzar.")
  | StepSummary action_taken reward observation =>
      match ToString action_taken, ToString reward, ToString observation with
      | Some a, Some r, Some o =>
          Some ((lit "Acci" ++ [243%N] ++ lit "n: ") ++ a ++
                (10%N :: lit "Recompensa: ") ++ r ++
                (10%N :: lit "Obs: ") ++ o)
      | _, _, _ => None
      end
  end.

(** The calls that the last [drawText] of the panel made on the context
    of its canvas, 512 by 448; [context] is what [getContext] returns,
    the calls made so far or nothing. *)
Definition paint (context : option (list Dom.CanvasOp)) (c : Canvas)
  : option (list Dom.CanvasOp) :=
  match canvas_text c with
  | Some text => drawText context 512 448 text
  | None => context
  end.

End Strings.

(** The session ids of the [session-started] events among effects. *)
Fixpoint sessions_started (out : list Effect) : list JsVal :=
  match out with
  | [] => []
  | SessionStarted sid :: rest => sid :: sessions_started rest
  | _ :: rest => sessions_started rest
  end.

End Game.

(** ** The page: [createApp] of app.js, as main.js calls it *)

Module Page.
Import Js.

(** The two panels that [createApp] creates and wires. *)
Record State := {
  gamePanel : Game.Panel;
  chatPanel : Chat.Panel
}.

(** The HTTP requests of the page. *)
Inductive Request :=
| GameRequest (q : Game.Request)
| ChatPost (q : Chat.ChatRequest).

(** What can happen to the page: something on the game panel, or the
    user typing in the chat, submitting the form, a chat request
    settling.  Only the listener of [createApp] calls [updateSession]. *)
Inductive Event :=
| OnGame (e : Game.Event)
| ChatInput (text : jsstring)
| ChatSubmit
| ChatSettle (r : Settled).

(** The effects of a game handler as the page sees them: requests go
    out, and [session-started], dispatched with [detail: { sessionId }],
    runs the listener of [createApp] at once. *)
Fixpoint dispatch (out : list Game.Effect) (chat : Chat.Panel)
  : Chat.Panel * list Request :=
  match out with
  | [] => (chat, [])
  | Game.Http q :: rest =>
      let '(chat1, reqs) := dispatch rest chat in
      (chat1, GameRequest q :: reqs)
  | Game.SessionStarted sid :: rest =>
      dispatch rest (App.on_session_started (JObj [("sessionId", sid)]) chat)
  end.

Definition chat_requests (req : option Chat.ChatRequest) : list Request :=
  match req with
  | Some q => [ChatPost q]
  | None => []
  end.

Definition on_chat (e : Chat.Event) (st : State) : State * list Request :=
  let '(chat1, req) := Chat.handle e (chatPanel st) in
  ({| gamePanel := gamePanel st; chatPanel := chat1 |}, chat_requests req).

Definition handle (e : Event) (st : State) : State * list Request :=
  match e with
  | OnGame e =>
      let '(game1, out) := Game.handle e (gamePanel st) in
      let '(chat1, reqs) := dispatch out (chatPanel st) in
      ({| gamePanel := game1; chatPanel := chat1 |}, reqs)
  | ChatInput text => on_chat (Chat.Input text) st
  | ChatSubmit => on_chat Chat.Submit st
  | ChatSettle r => on_chat (Chat.Settle r) st
  end.

Fixpoint run (es : list Event) (st : State) : State * list Request :=
  match es with
  | [] => (st, [])
  | e :: rest =>
      let '(st1, out1) := handle e st in
      let '(st2, out2) := run rest st1 in
      (st2, out1 ++ out2)
  end.








End Page.

(* ===================================================================== *)
(** * Part II. Properties                                                 *)
(* ===================================================================== *)

Import Js.

(** C6. Rebinding the chat panel clears the history: whatever the
    conversation was, after [updateSession id] it is empty and the
    panel's session id is [id]; the application's [session-started]
    listener rebinds the panel to the id the event carries. *)
Theorem updateSession_resets_conversation :
  ∀ (id : JsVal) (st : Chat.Panel),
    Chat.conversation (Chat.updateSession id st) = [] ∧
    Chat.sessionId (Chat.updateSession id st) = id ∧
    Chat.conversation
      (App.on_session_started (JObj [("sessionId", id)]) st) = [] ∧
    Chat.sessionId
      (App.on_session_started (JObj [("sessionId", id)]) st) = id.
Proof.
  intros id st. repeat split.
Qed.

(** ** The chat form *)

Lemma submit_guard_passes (st : Chat.Panel) :
  trim (Chat.textarea_value st) ≠ [] →
  truthy (Chat.sessionId st) = true →
  convertible (Chat.sessionId st) = true →
  Chat.submit st =
    ({| Chat.conversation :=
          Chat.conversation st ++
            [{| Chat.role := "user";
                Chat.content := JStr (trim (Chat.textarea_value st)) |}];
        Chat.sessionId := Chat.sessionId st;
        Chat.textarea_value := [];
        Chat.messagesList :=
          Chat.messagesList st ++ [Chat.UserSaid (trim (Chat.textarea_value st))] |},
     Some {| Chat.chat_session := Chat.sessionId st;
             Chat.messages :=
               Chat.conversation st ++
                 [{| Chat.role := "user";
                     Chat.content := JStr (trim (Chat.textarea_value st)) |}] |}).
Proof.
  intros Htext Hsid Hconv. unfold Chat.submit. rewrite Hsid, Hconv. simpl.
  destruct (trim (Chat.textarea_value st)); [congruence | reflexivity].
Qed.

(** Past its guard, with a session id that has no string conversion,
    the submit handler stores and renders the user turn, empties the
    text field, renders the error and sends nothing. *)
Lemma submit_guard_throws (st : Chat.Panel) :
  trim (Chat.textarea_value st) ≠ [] →
  truthy (Chat.sessionId st) = true →
  convertible (Chat.sessionId st) = false →
  Chat.submit st =
    ({| Chat.conversation :=
          Chat.conversation st ++
            [{| Chat.role := "user";
                Chat.content := JStr (trim (Chat.textarea_value st)) |}];
        Chat.sessionId := Chat.sessionId st;
        Chat.textarea_value := [];
        Chat.messagesList :=
          Chat.messagesList st ++
            [Chat.UserSaid (trim (Chat.textarea_value st));
             Chat.ContactError TypeError] |},
     None).
Proof.
  intros Htext Hsid Hconv. unfold Chat.submit. rewrite Hsid, Hconv. simpl.
  destruct (trim (Chat.textarea_value st)); [congruence |].
  unfold Chat.appendMessage. simpl. rewrite <- app_assoc. reflexivity.
Qed.

(** C8. Submitting the form when the trimmed text is empty, or when no
    session id has been set (the panel's [sessionId] is still [null], or
    any other falsy value), changes nothing: the panel, with its
    conversation and its rendered messages, is the one before, and no
    request is issued. *)
Theorem submit_without_text_or_session_is_noop :
  ∀ st : Chat.Panel,
    trim (Chat.textarea_value st) = [] ∨
    Chat.sessionId st = JNull ∨
    truthy (Chat.sessionId st) = false →
    Chat.submit st = (st, None) ∧
    Chat.conversation (Chat.submit st).1 = Chat.conversation st ∧
    Chat.messagesList (Chat.submit st).1 = Chat.messagesList st ∧
    (Chat.submit st).2 = None.
Proof.
  intros st H.
  assert (Hs : Chat.submit st = (st, None)).
  { unfold Chat.submit. destruct H as [H | [H | H]].
    - rewrite H. reflexivity.
    - rewrite H. simpl. rewrite orb_true_r. reflexivity.
    - rewrite H. simpl. rewrite orb_true_r. reflexivity. }
  rewrite Hs. repeat split.
Qed.

Lemma submit_without_text_or_session_is_noop_witness :
  Chat.submit Chat.createChatPanel = (Chat.createChatPanel, None) ∧
  Chat.conversation (Chat.submit Chat.createChatPanel).1 = [] ∧
  Chat.messagesList (Chat.submit Chat.createChatPanel).1 = [Chat.InfoStart] ∧
  (Chat.submit Chat.createChatPanel).2 = None.
Proof.
  apply (submit_without_text_or_session_is_noop Chat.createChatPanel).
  right. left. reflexivity.
Defined.

(** Every handler of the panel other than the rebinding extends the
    conversation at its end, or leaves it. *)
Lemma handle_appends (e : Chat.Event) (st : Chat.Panel) :
  (∀ id, e ≠ Chat.UpdateSession id) →
  Chat.conversation st `prefix_of` Chat.conversation (Chat.handle e st).1.
Proof.
  intros Hne. destruct e as [text | | r | id]; simpl.
  - reflexivity.
  - unfold Chat.submit.
    destruct (negb _ || negb _); simpl; [reflexivity |].
    destruct (convertible _); simpl; apply prefix_app_r; reflexivity.
  - destruct r as [data | message]; simpl.
    + destruct (get_prop data "reply") as [v |]; simpl; [| reflexivity].
      destruct (convertible _); simpl; apply prefix_app_r; reflexivity.
    + destruct (convertible message); reflexivity.
  - destruct (Hne id). reflexivity.
Qed.

(** C9, as stated, fails: a request that is fulfilled with the body
    [null] adds no assistant turn, since reading [reply] of [null]
    throws inside the [try] block and the [catch] block runs. *)
Lemma fulfilled_request_without_assistant_turn :
  ¬ (∀ (st : Chat.Panel) (data : JsVal),
       trim (Chat.textarea_value st) ≠ [] →
       truthy (Chat.sessionId st) = true →
       ∃ reply,
         Chat.conversation (Chat.settle (Fulfilled data) (Chat.submit st).1) =
         Chat.conversation st ++
           [{| Chat.role := "user";
               Chat.content := JStr (trim (Chat.textarea_value st)) |};
            {| Chat.role := "assistant"; Chat.content := reply |}]).
Proof.
  intros H.
  destruct (H {| Chat.conversation := []; Chat.sessionId := JNum 1;
                 Chat.textarea_value := lit "hola";
                 Chat.messagesList := [] |} JNull) as [reply Hr].
  - vm_compute. discriminate.
  - reflexivity.
  - vm_compute in Hr. discriminate.
Qed.

(** The one handler that issues a request is the submit handler, past
    its guard and with a session id that converts to a string. *)
Lemma handle_request (e : Chat.Event) (st : Chat.Panel) (q : Chat.ChatRequest) :
  (Chat.handle e st).2 = Some q →
  e = Chat.Submit ∧
  trim (Chat.textarea_value st) ≠ [] ∧
  truthy (Chat.sessionId st) = true ∧
  convertible (Chat.sessionId st) = true ∧
  q = {| Chat.chat_session := Chat.sessionId st;
         Chat.messages :=
           Chat.conversation st ++
             [{| Chat.role := "user";
                 Chat.content := JStr (trim (Chat.textarea_value st)) |}] |}.
Proof.
  destruct e as [text | | r | id]; simpl; try discriminate.
  unfold Chat.submit.
  destruct (negb (truthy (JStr (trim (Chat.textarea_value st)))) ||
            negb (truthy (Chat.sessionId st))) eqn:Hg; simpl; [discriminate |].
  destruct (convertible (Chat.sessionId st)) eqn:Hc; simpl; [| discriminate].
  apply orb_false_elim in Hg as [Ht Hs].
  apply negb_false_iff in Ht, Hs.
  intros H. injection H as <-. repeat split; try assumption.
  intros Hnil. rewrite Hnil in Ht. discriminate.
Qed.

Lemma chat_run_cons (e : Chat.Event) (es : list Chat.Event) (st : Chat.Panel) :
  Chat.run (e :: es) st =
  ((Chat.run es (Chat.handle e st).1).1,
   match (Chat.handle e st).2 with
   | Some q => q :: (Chat.run es (Chat.handle e st).1).2
   | None => (Chat.run es (Chat.handle e st).1).2
   end).
Proof.
  simpl. destruct (Chat.handle e st) as [st1 req]. simpl.
  destruct (Chat.run es st1) as [st2 reqs]. reflexivity.
Qed.

Lemma not_rebinding (e : Chat.Event) :
  Chat.is_rebinding e = false → ∀ id, e ≠ Chat.UpdateSession id.
Proof. intros H id ->. discriminate. Qed.

(** As long as the panel is not rebound, the conversation only grows at
    its end, and every request carries all of it. *)
Lemma run_appends (es : list Chat.Event) :
  ∀ st : Chat.Panel,
    Forall (λ e, Chat.is_rebinding e = false) es →
    Chat.conversation st `prefix_of` Chat.conversation (Chat.run es st).1 ∧
    ∀ q, q ∈ (Chat.run es st).2 →
         Chat.conversation st `prefix_of` Chat.messages q.
Proof.
  induction es as [| e es IH]; intros st Hes.
  - split; [reflexivity | intros q Hq; inversion Hq].
  - apply Forall_cons in Hes as [He Hes]. rewrite chat_run_cons. cbn [fst snd].
    pose proof (handle_appends e st (not_rebinding e He)) as Hpre.
    destruct (IH (Chat.handle e st).1 Hes) as [IH1 IH2].
    split; [etransitivity; eassumption |].
    intros q Hq.
    destruct (Chat.handle e st).2 as [q0 |] eqn:Hreq.
    + apply elem_of_cons in Hq as [-> | Hq].
      * apply handle_request in Hreq as (_ & _ & _ & _ & ->). simpl.
        apply prefix_app_r. reflexivity.
      * etransitivity; [exact Hpre | exact (IH2 q Hq)].
    + etransitivity; [exact Hpre | exact (IH2 q Hq)].
Qed.

(** C9, amended.  For a submission with non-empty trimmed text and a
    truthy session id, the handler appends the user turn; it posts the
    conversation that ends with it when the session id converts to a
    string, and posts nothing when it does not.  From then on, as long
    as the panel is not rebound by [updateSession], whatever else
    happens on it: the conversation still starts with the earlier
    conversation followed by the user turn, and so does the message list
    of every request sent; a request fulfilled with a body that is
    neither [null] nor [undefined] appends one assistant turn, with the
    body's [reply] (the empty string when that is missing), at the end
    of the conversation; a request that is rejected, or fulfilled with a
    [null] or [undefined] body, appends nothing.  In particular, when
    the request of the submission settles first, a success leaves the
    earlier conversation followed by the user turn and the assistant
    turn, in that order.  No handler but the rebinding changes the
    conversation other than by appending at its end. *)
Theorem submit_appends_user_then_assistant :
  ∀ st : Chat.Panel,
    trim (Chat.textarea_value st) ≠ [] →
    truthy (Chat.sessionId st) = true →
    let user := {| Chat.role := "user";
                   Chat.content := JStr (trim (Chat.textarea_value st)) |} in
    let st1 := (Chat.submit st).1 in
    Chat.conversation st1 = Chat.conversation st ++ [user] ∧
    (convertible (Chat.sessionId st) = true →
     (Chat.submit st).2 =
       Some {| Chat.chat_session := Chat.sessionId st;
               Chat.messages := Chat.conversation st ++ [user] |}) ∧
    (convertible (Chat.sessionId st) = false → (Chat.submit st).2 = None) ∧
    (∀ es : list Chat.Event,
       Forall (λ e, Chat.is_rebinding e = false) es →
       let st2 := (Chat.run es st1).1 in
       (Chat.conversation st ++ [user]) `prefix_of` Chat.conversation st2 ∧
       (∀ q, q ∈ (Chat.run es st1).2 →
             (Chat.conversation st ++ [user]) `prefix_of` Chat.messages q) ∧
       (∀ data v, get_prop data "reply" = Some v →
          Chat.conversation (Chat.settle (Fulfilled data) st2) =
          Chat.conversation st2 ++
            [{| Chat.role := "assistant";
                Chat.content := nullish v (JStr []) |}]) ∧
       (∀ r, (∃ message, r = Rejected message) ∨
             r = Fulfilled JNull ∨ r = Fulfilled JUndefined →
          Chat.conversation (Chat.settle r st2) = Chat.conversation st2)) ∧
    (∀ data v, get_prop data "reply" = Some v →
       Chat.conversation (Chat.settle (Fulfilled data) st1) =
       Chat.conversation st ++
         [user; {| Chat.role := "assistant";
                   Chat.content := nullish v (JStr []) |}]) ∧
    (∀ e st', (∀ id, e ≠ Chat.UpdateSession id) →
       Chat.conversation st' `prefix_of` Chat.conversation (Chat.handle e st').1).
Proof.
  intros st Htext Hsid user st1.
  assert (Hsettle : ∀ (st2 : Chat.Panel) data v,
            get_prop data "reply" = Some v →
            Chat.conversation (Chat.settle (Fulfilled data) st2) =
            Chat.conversation st2 ++
              [{| Chat.role := "assistant";
                  Chat.content := nullish v (JStr []) |}]).
  { intros st2 data v Hv. unfold Chat.settle. rewrite Hv. simpl.
    destruct (convertible _); reflexivity. }
  assert (Hconv : Chat.conversation st1 = Chat.conversation st ++ [user]).
  { unfold st1. destruct (convertible (Chat.sessionId st)) eqn:Hc.
    - rewrite (submit_guard_passes st Htext Hsid Hc). reflexivity.
    - rewrite (submit_guard_throws st Htext Hsid Hc). reflexivity. }
  split; [exact Hconv |].
  split; [intros Hc; rewrite (submit_guard_passes st Htext Hsid Hc); reflexivity |].
  split; [intros Hc; rewrite (submit_guard_throws st Htext Hsid Hc); reflexivity |].
  split; [| split].
  - intros es Hes st2. destruct (run_appends es st1 Hes) as [Hpre Hreqs].
    rewrite Hconv in Hpre, Hreqs.
    split; [exact Hpre |]. split; [exact Hreqs |].
    split; [exact (Hsettle st2) |].
    intros r [[message ->] | [-> | ->]]; simpl;
      [destruct (convertible message) |..]; reflexivity.
  - intros data v Hv. rewrite (Hsettle st1 data v Hv), Hconv, <- app_assoc.
    reflexivity.
  - intros e st' Hne. apply handle_appends. exact Hne.
Qed.

Lemma submit_appends_user_then_assistant_witness :
  let st := {| Chat.conversation := []; Chat.sessionId := JStr (lit "s1");
               Chat.textarea_value := lit " hola ";
               Chat.messagesList := [Chat.InfoReady] |} in
  Chat.conversation (Chat.submit st).1 =
    [{| Chat.role := "user"; Chat.content := JStr (lit "hola") |}] ∧
  Chat.conversation
    (Chat.settle (Fulfilled (JObj [("reply", JStr (lit "ok"))])) (Chat.submit st).1) =
    [{| Chat.role := "user"; Chat.content := JStr (lit "hola") |};
     {| Chat.role := "assistant"; Chat.content := JStr (lit "ok") |}].
Proof.
  intros st.
  assert (Ht : trim (Chat.textarea_value st) ≠ []) by (vm_compute; discriminate).
  assert (Hs : truthy (Chat.sessionId st) = true) by reflexivity.
  pose proof (submit_appends_user_then_assistant st Ht Hs) as (H1 & _ & _ & _ & H5 & _).
  split.
  - exact H1.
  - exact (H5 (JObj [("reply", JStr (lit "ok"))]) (JStr (lit "ok")) eq_refl).
Defined.

(** ** The game panel *)

Lemma forget_useAi_toggle (b : bool) (st : Game.Panel) :
  Game.forget_useAi (Game.aiToggle_change b st) = Game.forget_useAi st.
Proof. reflexivity. Qed.

Lemma forget_useAi_fields (st st' : Game.Panel) :
  Game.forget_useAi st = Game.forget_useAi st' →
  Game.sessionId st = Game.sessionId st' ∧
  Game.select_value st = Game.select_value st' ∧
  Game.status st = Game.status st' ∧
  Game.stepButton_disabled st = Game.stepButton_disabled st' ∧
  Game.canvas st = Game.canvas st'.
Proof.
  unfold Game.forget_useAi, Game.aiToggle_change. intros H.
  injection H as -> -> -> -> ->. repeat split.
Qed.

(** A handler other than the checkbox's reads [useAi] in one place: the
    [use_ai] field of the step request. *)
Lemma handle_ignores_useAi (e : Game.Event) (st st' : Game.Panel) :
  Game.is_toggle e = false →
  Game.forget_useAi st = Game.forget_useAi st' →
  Game.forget_useAi (Game.handle e st).1 = Game.forget_useAi (Game.handle e st').1 ∧
  map Game.forget_use_ai (Game.handle e st).2 =
  map Game.forget_use_ai (Game.handle e st').2.
Proof.
  intros He H.
  destruct st as [sid b sel stt dis can], st' as [sid' b' sel' stt' dis' can'].
  unfold Game.forget_useAi, Game.aiToggle_change in H. simpl in H.
  injection H as -> -> -> -> ->.
  destruct e as [c | v | | g r | | r]; simpl in *; try discriminate.
  - split; reflexivity.
  - unfold Game.startButton_click. simpl. destruct (negb _); split; reflexivity.
  - unfold Game.startButton_settle. destruct r as [data | message]; simpl.
    + destruct (get_prop data "session_id"); split; reflexivity.
    + destruct (convertible message); split; reflexivity.
  - unfold Game.stepButton_click. simpl.
    destruct (negb _); [| destruct (convertible _)]; split; reflexivity.
  - unfold Game.stepButton_settle. destruct r as [data | message]; simpl.
    + destruct (get_prop data "observation"), (get_prop data "reward"),
        (get_prop data "action_taken"); try (split; reflexivity).
      destruct (convertible _ && convertible _ && convertible _);
        split; reflexivity.
    + destruct (convertible message); split; reflexivity.
Qed.

Lemma run_ignores_toggles (es : list Game.Event) :
  ∀ st st' : Game.Panel,
    Game.forget_useAi st = Game.forget_useAi st' →
    Game.forget_useAi (Game.run es st).1 =
      Game.forget_useAi (Game.run (Game.without_toggles es) st').1 ∧
    map Game.forget_use_ai (Game.run es st).2 =
      map Game.forget_use_ai (Game.run (Game.without_toggles es) st').2.
Proof.
  induction es as [| e es IH]; intros st st' H; simpl.
  - split; [exact H | reflexivity].
  - destruct (Game.is_toggle e) eqn:He; simpl.
    + destruct e; try discriminate. simpl.
      specialize (IH (Game.aiToggle_change checked st) st').
      rewrite forget_useAi_toggle in IH. specialize (IH H).
      destruct (Game.run es _) as [s2 o2]. simpl in *. exact IH.
    + destruct (handle_ignores_useAi e st st' He H) as [Hs Ho].
      destruct (Game.handle e st) as [s1 o1], (Game.handle e st') as [s1' o1'].
      simpl in *. specialize (IH s1 s1' Hs).
      destruct (Game.run es s1) as [s2 o2].
      destruct (Game.run (Game.without_toggles es) s1') as [s2' o2'].
      simpl in *. destruct IH as [IHs IHo]. split; [exact IHs |].
      rewrite !map_app, Ho, IHo. reflexivity.
Qed.

Lemma session_modes_app (o1 o2 : list Game.Effect) :
  Game.session_modes (o1 ++ o2) = Game.session_modes o1 ++ Game.session_modes o2.
Proof.
  induction o1 as [| [[| g m | s b] | sid] o1 IH]; simpl; rewrite ?IH; reflexivity.
Qed.

Lemma session_modes_forget (out : list Game.Effect) :
  Game.session_modes (map Game.forget_use_ai out) = Game.session_modes out.
Proof.
  induction out as [| [[| g m | s b] | sid] out IH]; simpl; rewrite ?IH; reflexivity.
Qed.

Lemma handle_session_modes (e : Game.Event) (st : Game.Panel) :
  Forall (λ mode, mode = "coop") (Game.session_modes (Game.handle e st).2).
Proof.
  destruct e as [b | v | | g r | | r]; simpl; try constructor.
  - unfold Game.startButton_click. destruct (negb _); simpl; repeat constructor.
  - unfold Game.startButton_settle. destruct r as [data | message]; simpl;
      [destruct (get_prop data "session_id") | destruct (convertible message)];
      simpl; constructor.
  - unfold Game.stepButton_click.
    destruct (negb _); [| destruct (convertible _)]; simpl; constructor.
  - unfold Game.stepButton_settle. destruct r as [data | message]; simpl.
    + destruct (get_prop data "observation"), (get_prop data "reward"),
        (get_prop data "action_taken"); simpl; try constructor.
      destruct (convertible _ && convertible _ && convertible _); simpl;
        constructor.
    + destruct (convertible message); simpl; constructor.
Qed.

Lemma run_session_modes (es : list Game.Event) :
  ∀ st, Forall (λ mode, mode = "coop") (Game.session_modes (Game.run es st).2).
Proof.
  induction es as [| e es IH]; intros st; simpl; [constructor |].
  pose proof (handle_session_modes e st) as He.
  destruct (Game.handle e st) as [s1 o1]. specialize (IH s1).
  destruct (Game.run es s1) as [s2 o2]. simpl in *.
  rewrite session_modes_app. apply Forall_app. split; assumption.
Qed.

(** C10. Whatever the checkbox did: a click on the start button with a
    game selected posts one session-creation request, for that game and
    with mode "coop", and every session-creation request of a run of the
    game panel carries mode "coop"; a click on the step button, with a
    session whose id converts to a string, posts one step request that
    carries the checkbox's last state in [use_ai]; and two runs of the
    panel that differ only in their checkbox events send the same
    requests and events but for the [use_ai] field of the step requests,
    so the session-creation requests, with their modes, are the same. *)
Theorem toggle_changes_only_use_ai :
  ∀ (es es' : list Game.Event) (st : Game.Panel),
    Game.without_toggles es = Game.without_toggles es' →
    Forall (λ mode, mode = "coop") (Game.session_modes (Game.run es st).2) ∧
    map Game.forget_use_ai (Game.run es st).2 =
      map Game.forget_use_ai (Game.run es' st).2 ∧
    Game.session_modes (Game.run es st).2 =
      Game.session_modes (Game.run es' st).2 ∧
    (∀ checked, (Game.startButton_click (Game.aiToggle_change checked st)).2 =
                (Game.startButton_click st).2) ∧
    (∀ checked, truthy (JStr (Game.select_value st)) = true →
       (Game.startButton_click (Game.aiToggle_change checked st)).2 =
       [Game.Http (Game.PostSessions (Game.select_value st) "coop")]) ∧
    (∀ checked, truthy (Game.sessionId st) = true →
       convertible (Game.sessionId st) = true →
       (Game.stepButton_click (Game.aiToggle_change checked st)).2 =
       [Game.Http (Game.PostStep (Game.sessionId st) checked)]).
Proof.
  intros es es' st Heq.
  assert (Hout : map Game.forget_use_ai (Game.run es st).2 =
                 map Game.forget_use_ai (Game.run es' st).2).
  { destruct (run_ignores_toggles es st st eq_refl) as [_ H1].
    destruct (run_ignores_toggles es' st st eq_refl) as [_ H2].
    rewrite H1, H2, Heq. reflexivity. }
  split; [apply run_session_modes |].
  split; [exact Hout |].
  split; [rewrite <- (session_modes_forget (Game.run es st).2), Hout;
          apply session_modes_forget |].
  split; [| split].
  - intros checked. unfold Game.startButton_click. simpl.
    destruct (negb _); reflexivity.
  - intros checked Hsel. unfold Game.startButton_click.
    change (Game.select_value (Game.aiToggle_change checked st))
      with (Game.select_value st).
    rewrite Hsel. reflexivity.
  - intros checked Hsid Hconv. unfold Game.stepButton_click. simpl.
    rewrite Hsid, Hconv. reflexivity.
Qed.

Lemma toggle_changes_only_use_ai_witness :
  let st := (Game.run [Game.Select (lit "sf2")] Game.createGamePanel.1).1 in
  let es := [Game.Toggle true; Game.StartClick;
             Game.StartSettle (lit "sf2")
               (Fulfilled (JObj [("session_id", JStr (lit "s1"))]));
             Game.StepClick] in
  let es' := [Game.StartClick;
              Game.StartSettle (lit "sf2")
                (Fulfilled (JObj [("session_id", JStr (lit "s1"))]));
              Game.StepClick] in
  Forall (λ mode, mode = "coop") (Game.session_modes (Game.run es st).2) ∧
  Game.session_modes (Game.run es st).2 = Game.session_modes (Game.run es' st).2 ∧
  (Game.startButton_click (Game.aiToggle_change true st)).2 =
    [Game.Http (Game.PostSessions (lit "sf2") "coop")].
Proof.
  intros st es es'.
  pose proof (toggle_changes_only_use_ai es es' st eq_refl)
    as (H1 & _ & H3 & _ & H5 & _).
  split; [exact H1 |]. split; [exact H3 |].
  exact (H5 true eq_refl).
Defined.

(** ** More on the chat form *)

Lemma trimStart_whitespace (s : jsstring) :
  trimStart s = [] ↔ Forall (λ c, is_whitespace c = true) s.
Proof.
  induction s as [| c s IH]; simpl.
  - split; [constructor | reflexivity].
  - destruct (is_whitespace c) eqn:Hc.
    + rewrite IH. split; [intros H; constructor; assumption |].
      intros H. inversion H; assumption.
    + split; [discriminate |]. intros H. inversion H; congruence.
Qed.

Lemma trimStart_head (s : jsstring) (c : N) (rest : jsstring) :
  trimStart s = c :: rest → is_whitespace c = false.
Proof.
  induction s as [| d s IH]; simpl; [discriminate |].
  destruct (is_whitespace d) eqn:Hd; [exact IH |].
  intros H. injection H as -> _. exact Hd.
Qed.

Lemma trimStart_suffix (s : jsstring) : trimStart s `suffix_of` s.
Proof.
  induction s as [| c s IH]; simpl; [reflexivity |].
  destruct (is_whitespace c); [apply suffix_cons_r; exact IH | reflexivity].
Qed.

Lemma trimStart_fixed (s : jsstring) :
  (∀ c, head s = Some c → is_whitespace c = false) → trimStart s = s.
Proof.
  destruct s as [| c s]; simpl; [reflexivity |].
  intros H. rewrite (H c eq_refl). reflexivity.
Qed.

Lemma trimEnd_prefix (s : jsstring) : trimEnd s `prefix_of` s.
Proof.
  unfold trimEnd. destruct (trimStart_suffix (rev s)) as [k Hk].
  exists (rev k). rewrite <- rev_app_distr, <- Hk, rev_involutive. reflexivity.
Qed.

Lemma trim_whitespace (s : jsstring) :
  trim s = [] ↔ Forall (λ c, is_whitespace c = true) s.
Proof.
  unfold trim, trimEnd. rewrite <- trimStart_whitespace. split.
  - intros H. apply (f_equal (@rev N)) in H. rewrite rev_involutive in H.
    simpl in H. apply trimStart_whitespace in H.
    destruct (trimStart s) as [| c rest] eqn:Hs; [reflexivity |].
    apply trimStart_head in Hs.
    apply Forall_rev in H. rewrite rev_involutive in H.
    inversion H; congruence.
  - intros ->. reflexivity.
Qed.

(** The ends of a trimmed string are not whitespace. *)
Lemma trim_ends (s : jsstring) :
  (∀ c, head (trim s) = Some c → is_whitespace c = false) ∧
  (∀ c, last (trim s) = Some c → is_whitespace c = false).
Proof.
  split; intros c Hc.
  - destruct (trimEnd_prefix (trimStart s)) as [k Hk]. fold (trim s) in Hk.
    destruct (trim s) as [| d rest] eqn:Ht; [discriminate |].
    simpl in Hc. injection Hc as ->.
    apply (trimStart_head s c (rest ++ k)). exact Hk.
  - unfold trim, trimEnd in Hc. apply last_Some in Hc as [k Hk].
    apply (f_equal (@rev N)) in Hk.
    rewrite rev_involutive, rev_app_distr in Hk. simpl in Hk.
    exact (trimStart_head _ _ _ Hk).
Qed.

(** X1. Submitting the form a second time, with nothing typed in
    between, sends nothing and changes nothing: the first submission
    either stopped at the guard or emptied the text field. *)
Theorem second_submit_sends_nothing :
  ∀ st : Chat.Panel,
    Chat.submit (Chat.submit st).1 = ((Chat.submit st).1, None) ∧
    Chat.run [Chat.Submit; Chat.Submit] st = Chat.run [Chat.Submit] st.
Proof.
  intros st.
  assert (Hempty : ∀ s, Chat.textarea_value s = [] → Chat.submit s = (s, None)).
  { intros s Hs. unfold Chat.submit. rewrite Hs. reflexivity. }
  assert (H : Chat.submit (Chat.submit st).1 = ((Chat.submit st).1, None)).
  { destruct (negb (truthy (JStr (trim (Chat.textarea_value st)))) ||
              negb (truthy (Chat.sessionId st))) eqn:Hg.
    - assert (Hst : Chat.submit st = (st, None))
        by (unfold Chat.submit; rewrite Hg; reflexivity).
      rewrite Hst. exact Hst.
    - apply Hempty. unfold Chat.submit. rewrite Hg.
      destruct (convertible (Chat.sessionId st)); reflexivity. }
  split; [exact H |].
  simpl. destruct (Chat.submit st) as [st1 req]. simpl in H. rewrite H.
  reflexivity.
Qed.

(** X2. With a truthy session id, the submit handler sends no request
    in exactly two cases: the text is made of whitespace only (the empty
    text included), or the session id has no string conversion, so that
    building the URL throws.  Any other submission is sent. *)
Theorem submit_drops_exactly_blank_text :
  ∀ st : Chat.Panel,
    truthy (Chat.sessionId st) = true →
    ((Chat.submit st).2 = None ↔
     Forall (λ c, is_whitespace c = true) (Chat.textarea_value st) ∨
     convertible (Chat.sessionId st) = false).
Proof.
  intros st Hsid. rewrite <- trim_whitespace. split.
  - intros Hnone.
    destruct (trim (Chat.textarea_value st)) as [| c rest] eqn:Ht;
      [left; reflexivity |].
    destruct (convertible (Chat.sessionId st)) eqn:Hc; [| right; reflexivity].
    rewrite submit_guard_passes in Hnone; [discriminate | | exact Hsid | exact Hc].
    rewrite Ht. discriminate.
  - intros [Ht | Hc].
    + unfold Chat.submit. rewrite Ht. reflexivity.
    + unfold Chat.submit. rewrite Hc.
      destruct (negb _ || negb _); reflexivity.
Qed.

Lemma submit_drops_exactly_blank_text_witness :
  let st := {| Chat.conversation := []; Chat.sessionId := JStr (lit "s1");
               Chat.textarea_value := [32; 9; 10; 160]%N;
               Chat.messagesList := [Chat.InfoReady] |} in
  (Chat.submit st).2 = None ↔
  Forall (λ c, is_whitespace c = true) [32; 9; 10; 160]%N ∨
  convertible (JStr (lit "s1")) = false.
Proof.
  intros st. apply (submit_drops_exactly_blank_text st). reflexivity.
Defined.

(** X3. Every request that a run of the chat panel issues goes to a
    truthy session id, and its message list ends with a user turn whose
    content is a non-empty string that neither starts nor ends with
    whitespace. *)
Theorem chat_requests_end_with_trimmed_user_turn :
  ∀ (es : list Chat.Event) (st : Chat.Panel) (q : Chat.ChatRequest),
    q ∈ (Chat.run es st).2 →
    truthy (Chat.chat_session q) = true ∧
    ∃ text : jsstring,
      last (Chat.messages q) =
        Some {| Chat.role := "user"; Chat.content := JStr text |} ∧
      text ≠ [] ∧
      (∀ c, head text = Some c → is_whitespace c = false) ∧
      (∀ c, last text = Some c → is_whitespace c = false).
Proof.
  induction es as [| e es IH]; intros st q Hq; simpl in Hq.
  - inversion Hq.
  - destruct (Chat.handle e st) as [st1 req] eqn:He.
    specialize (IH st1 q).
    destruct (Chat.run es st1) as [st2 reqs]. simpl in *.
    assert (Hcases : req = Some q ∨ q ∈ reqs).
    { destruct req as [q0 |]; [| right; exact Hq].
      apply elem_of_cons in Hq as [-> | Hq]; [left; reflexivity | right; exact Hq]. }
    destruct Hcases as [-> | Hin]; [| exact (IH Hin)].
    assert (Hreq : (Chat.handle e st).2 = Some q) by (rewrite He; reflexivity).
    apply handle_request in Hreq as (_ & Ht & Hs & _ & ->). simpl.
    split; [exact Hs |].
    exists (trim (Chat.textarea_value st)).
    split; [apply last_snoc |]. split; [exact Ht |]. apply trim_ends.
Qed.

Lemma chat_requests_end_with_trimmed_user_turn_witness :
  let q := {| Chat.chat_session := JStr (lit "s1");
              Chat.messages :=
                [{| Chat.role := "user"; Chat.content := JStr (lit "hola") |}] |} in
  truthy (Chat.chat_session q) = true ∧
  ∃ text : jsstring,
    last (Chat.messages q) =
      Some {| Chat.role := "user"; Chat.content := JStr text |} ∧
    text ≠ [] ∧
    (∀ c, head text = Some c → is_whitespace c = false) ∧
    (∀ c, last text = Some c → is_whitespace c = false).
Proof.
  intros q.
  apply (chat_requests_end_with_trimmed_user_turn
           [Chat.UpdateSession (JStr (lit "s1")); Chat.Input (lit " hola ");
            Chat.Submit]
           Chat.createChatPanel q).
  vm_compute. apply list_elem_of_here.
Defined.








(** X5. A reply that arrives after the panel was rebound is taken into
    the new conversation: when [updateSession id] runs while a request
    is pending and that request is then fulfilled, its reply becomes the
    first entry of the emptied conversation; and, [id] being truthy and
    having a string conversion, the first message sent to session [id]
    carries that reply ahead of the user's turn. *)
Theorem late_reply_enters_new_session :
  ∀ (st : Chat.Panel) (id data v : JsVal) (text : jsstring),
    truthy id = true →
    convertible id = true →
    get_prop data "reply" = Some v →
    trim text ≠ [] →
    Chat.conversation
      (Chat.run [Chat.UpdateSession id; Chat.Settle (Fulfilled data)] st).1 =
      [{| Chat.role := "assistant"; Chat.content := nullish v (JStr []) |}] ∧
    (Chat.run [Chat.UpdateSession id; Chat.Settle (Fulfilled data);
               Chat.Input text; Chat.Submit] st).2 =
      [{| Chat.chat_session := id;
          Chat.messages :=
            [{| Chat.role := "assistant"; Chat.content := nullish v (JStr []) |};
             {| Chat.role := "user"; Chat.content := JStr (trim text) |}] |}].
Proof.
  intros st id data v text Hid Hconv Hv Htext. simpl. unfold Chat.settle.
  rewrite Hv. simpl.
  destruct (convertible (nullish v (JStr []))); simpl;
    (split; [reflexivity |]);
    match goal with
    | |- context [Chat.submit ?s] =>
        pose proof (submit_guard_passes s Htext Hid Hconv) as Hsub
    end;
    simpl in Hsub; rewrite Hsub; reflexivity.
Qed.

Lemma late_reply_enters_new_session_witness :
  (Chat.run [Chat.UpdateSession (JStr (lit "s2"));
             Chat.Settle (Fulfilled (JObj [("reply", JStr (lit "viejo"))]));
             Chat.Input (lit "hola"); Chat.Submit] Chat.createChatPanel).2 =
    [{| Chat.chat_session := JStr (lit "s2");
        Chat.messages :=
          [{| Chat.role := "assistant";
              Chat.content := nullish (JStr (lit "viejo")) (JStr []) |};
           {| Chat.role := "user"; Chat.content := JStr (trim (lit "hola")) |}] |}].
Proof.
  refine (proj2 (late_reply_enters_new_session Chat.createChatPanel
                   (JStr (lit "s2")) (JObj [("reply", JStr (lit "viejo"))])
                   (JStr (lit "viejo")) (lit "hola") _ _ _ _)).
  - reflexivity.
  - reflexivity.
  - reflexivity.
  - vm_compute. discriminate.
Defined.

(** ** More on the game panel *)

(** What a handler of the game panel sends, and what it does to the
    session id and to the step button: nothing, or a session-creation
    request, or a step request for the current session, or the
    [session-started] event for the id it has just stored. *)
Lemma handle_effects (e : Game.Event) (st : Game.Panel) :
  let st1 := (Game.handle e st).1 in
  let out := (Game.handle e st).2 in
  (Game.sessionId st1 = Game.sessionId st ∧
   Game.stepButton_disabled st1 = Game.stepButton_disabled st ∧
   (out = [] ∨
    (∃ g, out = [Game.Http (Game.PostSessions g "coop")]) ∨
    (truthy (Game.sessionId st) = true ∧
     out = [Game.Http (Game.PostStep (Game.sessionId st) (Game.useAi st))]))) ∨
  (out = [Game.SessionStarted (Game.sessionId st1)] ∧
   Game.stepButton_disabled st1 = false).
Proof.
  destruct e as [b | v | | g r | | r]; simpl.
  - left. auto.
  - left. auto.
  - left. unfold Game.startButton_click. destruct (negb _); simpl; eauto 6.
  - unfold Game.startButton_settle. destruct r as [data | message]; simpl.
    + destruct (get_prop data "session_id"); simpl; [right; auto | left; auto].
    + left. destruct (convertible message); simpl; auto.
  - left. unfold Game.stepButton_click.
    destruct (truthy (Game.sessionId st)) eqn:Hs; simpl; [| auto].
    destruct (convertible (Game.sessionId st)); simpl; auto 6.
  - left. unfold Game.stepButton_settle. destruct r as [data | message]; simpl.
    + destruct (get_prop data "observation"), (get_prop data "reward"),
        (get_prop data "action_taken"); simpl; auto.
      destruct (convertible _ && convertible _ && convertible _); simpl; auto.
    + destruct (convertible message); simpl; auto.
Qed.

Lemma sessions_started_app (o1 o2 : list Game.Effect) :
  Game.sessions_started (o1 ++ o2) =
  Game.sessions_started o1 ++ Game.sessions_started o2.
Proof.
  induction o1 as [| [q | sid] o1 IH]; simpl; rewrite ?IH; reflexivity.
Qed.

(** The session of a step request is the one of the last
    [session-started] before it, or the one the run began with. *)
Lemma run_step_sessions (es : list Game.Event) :
  ∀ (st : Game.Panel) (l1 l2 : list Game.Effect) (s : JsVal) (b : bool),
    (Game.run es st).2 = l1 ++ Game.Http (Game.PostStep s b) :: l2 →
    truthy s = true ∧
    s = default (Game.sessionId st) (last (Game.sessions_started l1)).
Proof.
  induction es as [| e es IH]; intros st l1 l2 s b Hout; simpl in Hout.
  - destruct l1; discriminate.
  - pose proof (handle_effects e st) as He.
    destruct (Game.handle e st) as [st1 o1]. specialize (IH st1).
    destruct (Game.run es st1) as [st2 o2]. simpl in *.
    destruct He as [(Hsid & _ & [-> | [[g ->] | [Htr ->]]]) | [-> _]];
      simpl in Hout.
    + rewrite <- Hsid. exact (IH _ _ _ _ Hout).
    + destruct l1 as [| x l1]; simpl in Hout; [discriminate |].
      injection Hout as <- Hout. simpl. rewrite <- Hsid. exact (IH _ _ _ _ Hout).
    + destruct l1 as [| x l1]; simpl in Hout.
      * injection Hout as <- <- _. split; [exact Htr | reflexivity].
      * injection Hout as <- Hout. simpl. rewrite <- Hsid.
        exact (IH _ _ _ _ Hout).
    + destruct l1 as [| x l1]; simpl in Hout; [discriminate |].
      injection Hout as <- Hout. destruct (IH _ _ _ _ Hout) as [Htr Hs].
      split; [exact Htr |]. simpl.
      destruct (Game.sessions_started l1) as [| y ys] eqn:Hl1; [exact Hs |].
      rewrite last_cons_cons.
      destruct (last (y :: ys)) as [z |] eqn:Hz; [exact Hs |].
      apply last_None in Hz. discriminate.
Qed.

(** X6. The game panel never steps a session it has not started: in
    every run of a new panel, a step request goes to a truthy session
    id, and that id is the one of the last [session-started] event
    dispatched before it. *)
Theorem step_requests_follow_session_started :
  ∀ (es : list Game.Event) (l1 l2 : list Game.Effect) (s : JsVal) (b : bool),
    (Game.run es Game.createGamePanel.1).2 =
      l1 ++ Game.Http (Game.PostStep s b) :: l2 →
    truthy s = true ∧ last (Game.sessions_started l1) = Some s.
Proof.
  intros es l1 l2 s b Hout.
  destruct (run_step_sessions es _ _ _ _ _ Hout) as [Htr Hs].
  split; [exact Htr |].
  destruct (last (Game.sessions_started l1)) as [y |]; simpl in Hs.
  - rewrite Hs. reflexivity.
  - rewrite Hs in Htr. discriminate.
Qed.

Lemma step_requests_follow_session_started_witness :
  truthy (JStr (lit "s1")) = true ∧
  last (Game.sessions_started [Game.Http (Game.PostSessions (lit "sf2") "coop");
                               Game.SessionStarted (JStr (lit "s1"))]) =
    Some (JStr (lit "s1")).
Proof.
  apply (step_requests_follow_session_started
           [Game.Select (lit "sf2"); Game.StartClick;
            Game.StartSettle (lit "sf2")
              (Fulfilled (JObj [("session_id", JStr (lit "s1"))]));
            Game.Toggle true; Game.StepClick]
           [Game.Http (Game.PostSessions (lit "sf2") "coop");
            Game.SessionStarted (JStr (lit "s1"))]
           [] (JStr (lit "s1")) true).
  reflexivity.
Defined.

(** The session id of the panel follows the [session-started] events,
    and the step button stays disabled until the first of them. *)
Lemma run_session_state (es : list Game.Event) :
  ∀ st : Game.Panel,
    Game.sessionId (Game.run es st).1 =
      default (Game.sessionId st)
              (last (Game.sessions_started (Game.run es st).2)) ∧
    (Game.stepButton_disabled (Game.run es st).1 = true ↔
     Game.stepButton_disabled st = true ∧
     Game.sessions_started (Game.run es st).2 = []).
Proof.
  induction es as [| e es IH]; intros st; simpl.
  - split; [reflexivity | tauto].
  - pose proof (handle_effects e st) as He.
    destruct (Game.handle e st) as [st1 o1]. specialize (IH st1).
    destruct (Game.run es st1) as [st2 o2]. simpl in *.
    destruct IH as [IHs IHb]. rewrite sessions_started_app.
    destruct He as [(Hsid & Hdis & Hout) | [-> Hdis]].
    + assert (Hnone : Game.sessions_started o1 = []).
      { destruct Hout as [-> | [[g ->] | [_ ->]]]; reflexivity. }
      rewrite Hnone, <- Hsid, <- Hdis. simpl. split; assumption.
    + simpl. split.
      * rewrite IHs.
        destruct (Game.sessions_started o2) as [| y ys]; [reflexivity |].
        rewrite last_cons_cons.
        destruct (last (y :: ys)) as [z |] eqn:Hz; [reflexivity |].
        apply last_None in Hz. discriminate.
      * rewrite IHb, Hdis. split; [intros [? _] | intros [_ ?]]; discriminate.
Qed.

(** X7. The session id of the game panel and its [session-started]
    events move together: after any run of a new panel the session id is
    the one of the last event dispatched, [null] when there was none;
    and the step button is disabled exactly as long as no event was
    dispatched. *)
Theorem session_id_follows_session_started :
  ∀ es : list Game.Event,
    let st := (Game.run es Game.createGamePanel.1).1 in
    let out := (Game.run es Game.createGamePanel.1).2 in
    Game.sessionId st = default JNull (last (Game.sessions_started out)) ∧
    (Game.stepButton_disabled st = true ↔ Game.sessions_started out = []).
Proof.
  intros es st out.
  destruct (run_session_state es Game.createGamePanel.1) as [Hs Hb].
  split; [exact Hs |]. fold st out in Hb. rewrite Hb. simpl. tauto.
Qed.

(** X8. A start request that is fulfilled with a body holding no usable
    [session_id] (a missing one, [null], the empty string, 0) still marks
    the session active and enables the step button, but the session id
    it stores is falsy: the step button then sends nothing, and the chat
    panel, rebound to that id by the listener of the application, sends
    nothing either. *)
Theorem start_without_session_id_leaves_dead_controls :
  ∀ (st : Game.Panel) (chat : Chat.Panel) (gameId : jsstring) (data v : JsVal),
    get_prop data "session_id" = Some v →
    truthy v = false →
    let st1 := (Game.startButton_settle gameId (Fulfilled data) st).1 in
    (Game.startButton_settle gameId (Fulfilled data) st).2 =
      [Game.SessionStarted v] ∧
    Game.status st1 = Game.ActiveSession gameId ∧
    Game.stepButton_disabled st1 = false ∧
    Game.stepButton_click st1 = (st1, []) ∧
    ∀ text,
      (Chat.run [Chat.Input text; Chat.Submit]
         (App.on_session_started (JObj [("sessionId", v)]) chat)).2 = [].
Proof.
  intros st chat gameId data v Hv Hfalsy st1. subst st1.
  unfold Game.startButton_settle. rewrite Hv. simpl.
  repeat split.
  - unfold Game.stepButton_click. simpl. rewrite Hfalsy. reflexivity.
  - intros text. unfold Chat.submit. simpl. rewrite Hfalsy, orb_true_r.
    reflexivity.
Qed.

Lemma start_without_session_id_leaves_dead_controls_witness :
  let st1 := (Game.startButton_settle (lit "sf2") (Fulfilled (JObj []))
                Game.createGamePanel.1).1 in
  Game.status st1 = Game.ActiveSession (lit "sf2") ∧
  Game.stepButton_disabled st1 = false ∧
  Game.stepButton_click st1 = (st1, []).
Proof.
  intros st1.
  pose proof (start_without_session_id_leaves_dead_controls
                Game.createGamePanel.1 Chat.createChatPanel (lit "sf2")
                (JObj []) JUndefined eq_refl eq_refl) as (_ & H2 & H3 & H4 & _).
  repeat split; assumption.
Defined.

(** ** The list of games *)

(** On ids that are strings the [forEach] of [fetchGames] comes to its
    end, having appended one option for each id; the first option added
    to an empty select becomes the selected one. *)
Lemma forEach_game_strings (show : JsVal → jsstring) (gs : list jsstring) :
  ∀ sel : Dom.SelectEl,
    let result := Game.forEach_game show (map JStr gs) sel in
    result.2 = true ∧
    Dom.options result.1 =
      Dom.options sel ++
        map (λ g, {| Dom.value_attr := Some g; Dom.textContent := g |}) gs ∧
    Dom.selectedIndex result.1 =
      match Dom.selectedIndex sel, gs with
      | Some i, _ => Some i
      | None, [] => None
      | None, _ :: _ => Some 0%nat
      end.
Proof.
  induction gs as [| g gs IH]; intros sel; simpl.
  - rewrite app_nil_r. repeat split. destruct (Dom.selectedIndex sel); reflexivity.
  - change (Game.game_option show (JStr g))
      with (Some {| Dom.value_attr := Some g; Dom.textContent := g |}).
    cbv iota beta.
    destruct (IH (Dom.appendChild
                    {| Dom.value_attr := Some g; Dom.textContent := g |} sel))
      as (Hf & Ho & Hi).
    simpl in Ho, Hi. rewrite Hf, Ho, Hi, <- app_assoc. repeat split.
    destruct (Dom.selectedIndex sel); reflexivity.
Qed.

(** Once an option is selected, the [forEach] of [fetchGames] and the
    [catch] block leave it selected and in its place. *)
Lemma forEach_game_selected (show : JsVal → jsstring) (games : list JsVal) :
  ∀ (sel : Dom.SelectEl) (i : nat) (o : Dom.OptionEl),
    Dom.selectedIndex sel = Some i →
    Dom.options sel !! i = Some o →
    let result := Game.forEach_game show games sel in
    Dom.value result.1 = Dom.option_value o ∧
    Dom.value (Dom.appendChild Game.error_option result.1) = Dom.option_value o.
Proof.
  assert (Hvalue : ∀ (sel : Dom.SelectEl) i o,
            Dom.selectedIndex sel = Some i → Dom.options sel !! i = Some o →
            Dom.value sel = Dom.option_value o).
  { intros sel i o Hi Ho. unfold Dom.value. rewrite Hi, Ho. reflexivity. }
  assert (Happend : ∀ (sel : Dom.SelectEl) x i o,
            Dom.selectedIndex sel = Some i → Dom.options sel !! i = Some o →
            Dom.selectedIndex (Dom.appendChild x sel) = Some i ∧
            Dom.options (Dom.appendChild x sel) !! i = Some o).
  { intros sel x i o Hi Ho. unfold Dom.appendChild. simpl. rewrite Hi.
    split; [reflexivity |]. apply lookup_app_l_Some. exact Ho. }
  induction games as [| g games IH]; intros sel i o Hi Ho; simpl.
  - split; [exact (Hvalue sel i o Hi Ho) |].
    destruct (Happend sel Game.error_option i o Hi Ho) as [Hi' Ho'].
    exact (Hvalue _ i o Hi' Ho').
  - destruct (Game.game_option show g) as [x |].
    + destruct (Happend sel x i o Hi Ho) as [Hi' Ho']. exact (IH _ i o Hi' Ho').
    + simpl. split; [exact (Hvalue sel i o Hi Ho) |].
      destruct (Happend sel Game.error_option i o Hi Ho) as [Hi' Ho'].
      exact (Hvalue _ i o Hi' Ho').
Qed.

Lemma string_options (gs : list jsstring) :
  map Dom.option_value
      (map (λ g, {| Dom.value_attr := Some g; Dom.textContent := g |}) gs) = gs ∧
  map Dom.textContent
      (map (λ g, {| Dom.value_attr := Some g; Dom.textContent := g |}) gs) = gs.
Proof.
  induction gs as [| g gs [IH1 IH2]]; simpl; [split; reflexivity |].
  unfold Dom.option_value at 1. simpl. rewrite IH1, IH2. split; reflexivity.
Qed.

(** X9. When the request of [fetchGames] is fulfilled with a list of
    game ids that are strings, the select holds exactly one option for
    each id, in the order of the list, with the id as its value and as
    its text, whatever options it held before; it reports the first id
    as its value, or the empty string when the list is empty. *)
Theorem fetchGames_lists_the_games :
  ∀ (show : JsVal → jsstring) (data : JsVal) (gs : list jsstring)
    (sel : Dom.SelectEl),
    Game.games_of data = Some (map JStr gs) →
    let sel1 := Game.fetchGames_settle show (Fulfilled data) sel in
    map Dom.option_value (Dom.options sel1) = gs ∧
    map Dom.textContent (Dom.options sel1) = gs ∧
    Dom.value sel1 = default [] (head gs).
Proof.
  intros show data gs sel Hgames sel1. subst sel1.
  unfold Game.fetchGames_settle. rewrite Hgames.
  destruct (forEach_game_strings show gs (Dom.remove_options sel))
    as (Hf & Ho & Hi).
  destruct (Game.forEach_game show (map JStr gs) (Dom.remove_options sel))
    as [sel2 finished].
  simpl in Hf, Ho, Hi. subst finished.
  destruct (string_options gs) as [Hv Ht].
  unfold Dom.value. rewrite Ho, Hi, Hv, Ht.
  repeat split. destruct gs as [| g gs]; reflexivity.
Qed.

Lemma fetchGames_lists_the_games_witness :
  let sel1 :=
    Game.fetchGames_settle (λ _, [])
      (Fulfilled (JObj [("games", JArr [JStr (lit "sf2"); JStr (lit "smb")])]))
      (Dom.appendChild Game.error_option Dom.empty_select) in
  map Dom.option_value (Dom.options sel1) = [lit "sf2"; lit "smb"] ∧
  map Dom.textContent (Dom.options sel1) = [lit "sf2"; lit "smb"] ∧
  Dom.value sel1 = default [] (head [lit "sf2"; lit "smb"]).
Proof.
  intros sel1.
  apply (fetchGames_lists_the_games (λ _, [])
           (JObj [("games", JArr [JStr (lit "sf2"); JStr (lit "smb")])])
           [lit "sf2"; lit "smb"]).
  reflexivity.
Defined.

(** X10. When the list of games cannot be loaded (the request is
    rejected, or the body is [null] or holds no array under [games]),
    the select of a new panel holds the one option "Error al cargar
    juegos", which has no value of its own and so reports its text; the
    start button then asks the server for a session of the game called
    "Error al cargar juegos". *)
Theorem failed_load_offers_error_text_as_game :
  ∀ (show : JsVal → jsstring) (r : Settled),
    (∀ data, r = Fulfilled data → Game.games_of data = None) →
    let sel1 := Game.fetchGames_settle show r Dom.empty_select in
    Dom.options sel1 = [Game.error_option] ∧
    Dom.value sel1 = lit "Error al cargar juegos" ∧
    (Game.run [Game.games_loaded show r; Game.StartClick]
              Game.createGamePanel.1).2 =
      [Game.Http (Game.PostSessions (lit "Error al cargar juegos") "coop")].
Proof.
  intros show r Hfail sel1.
  assert (Hsel : sel1 = Dom.appendChild Game.error_option Dom.empty_select).
  { subst sel1. destruct r as [data | message]; simpl; [| reflexivity].
    rewrite (Hfail data eq_refl). reflexivity. }
  assert (Hvalue : Dom.value sel1 = lit "Error al cargar juegos").
  { rewrite Hsel. vm_compute. reflexivity. }
  split; [rewrite Hsel; reflexivity |].
  split; [exact Hvalue |].
  unfold Game.games_loaded. fold sel1. rewrite Hvalue. vm_compute. reflexivity.
Qed.

Lemma failed_load_offers_error_text_as_game_witness :
  (Game.run [Game.games_loaded (λ _, []) (Fulfilled (JObj [("games", JNull)]));
             Game.StartClick]
            Game.createGamePanel.1).2 =
    [Game.Http (Game.PostSessions (lit "Error al cargar juegos") "coop")].
Proof.
  refine (proj2 (proj2 (failed_load_offers_error_text_as_game (λ _, [])
                          (Fulfilled (JObj [("games", JNull)])) _))).
  intros data Hdata. injection Hdata as <-. reflexivity.
Defined.

(** X11. Pressing the start button once the request for the list of
    games was fulfilled with an array, without choosing an option: when
    the first id converts to a string, the click asks for a session of
    that game, in mode "coop", or sends nothing when the string is
    empty; when the first id has no string conversion, building its
    option throws, the error option comes first, and the click asks for
    a session of the game called "Error al cargar juegos"; when the list
    is empty the click sends nothing. *)
Theorem start_after_load_uses_first_game :
  ∀ (show : JsVal → jsstring) (data : JsVal) (games : list JsVal),
    Game.games_of data = Some games →
    (Game.run [Game.games_loaded show (Fulfilled data); Game.StartClick]
              Game.createGamePanel.1).2 =
      match games with
      | [] => []
      | gameId :: _ =>
          match Game.ToString show gameId with
          | Some s =>
              if truthy (JStr s)
              then [Game.Http (Game.PostSessions s "coop")]
              else []
          | None =>
              [Game.Http (Game.PostSessions (lit "Error al cargar juegos") "coop")]
          end
      end.
Proof.
  intros show data games Hgames.
  assert (Hvalue :
            Dom.value (Game.fetchGames_settle show (Fulfilled data) Dom.empty_select) =
            match games with
            | [] => []
            | gameId :: _ =>
                match Game.ToString show gameId with
                | Some s => s
                | None => lit "Error al cargar juegos"
                end
            end).
  { unfold Game.fetchGames_settle. rewrite Hgames.
    destruct games as [| gameId games]; [reflexivity |]. simpl.
    unfold Game.game_option.
    destruct (Game.ToString show gameId) as [s |]; [| vm_compute; reflexivity].
    match goal with
    | |- context [Game.forEach_game show games ?sel0] =>
        destruct (forEach_game_selected show games sel0 0%nat
                    {| Dom.value_attr := Some s;
                       Dom.textContent :=
                         match gameId with
                         | JUndefined | JNull => []
                         | _ => s
                         end |} eq_refl eq_refl) as [H1 H2];
        destruct (Game.forEach_game show games sel0) as [sel2 finished]
    end.
    simpl in H1, H2. destruct finished; assumption. }
  unfold Game.games_loaded. rewrite Hvalue.
  destruct games as [| gameId games]; [reflexivity |].
  destruct (Game.ToString show gameId) as [s |]; [| vm_compute; reflexivity].
  simpl. unfold Game.startButton_click. simpl. destruct s; reflexivity.
Qed.

Lemma start_after_load_uses_first_game_witness :
  (Game.run [Game.games_loaded (λ _, [])
               (Fulfilled (JObj [("games", JArr [JObj [("toString", JNum 1)];
                                                JStr (lit "sf2")])]));
             Game.StartClick]
            Game.createGamePanel.1).2 =
    [Game.Http (Game.PostSessions (lit "Error al cargar juegos") "coop")].
Proof.
  apply (start_after_load_uses_first_game (λ _, [])
           (JObj [("games", JArr [JObj [("toString", JNum 1)]; JStr (lit "sf2")])])
           [JObj [("toString", JNum 1)]; JStr (lit "sf2")]).
  reflexivity.
Defined.

(** ** The canvas *)

Lemma split_cons_piece (sep : N) (s : jsstring) :
  ∃ piece pieces, split sep s = piece :: pieces.
Proof.
  destruct s as [| c s]; simpl; [eauto |].
  destruct (c =? sep)%N; [eauto |].
  destruct (split sep s); eauto.
Qed.

Lemma join_split (sep : N) (s : jsstring) : join sep (split sep s) = s.
Proof.
  induction s as [| c s IH]; simpl; [reflexivity |].
  destruct (split_cons_piece sep s) as (piece & pieces & Hs).
  rewrite Hs in IH |- *.
  destruct (N.eqb_spec c sep) as [-> | Hne].
  - change (join sep ([] :: piece :: pieces))
      with (sep :: join sep (piece :: pieces)).
    rewrite IH. reflexivity.
  - destruct pieces as [| piece' pieces]; simpl in IH |- *; rewrite <- IH;
      reflexivity.
Qed.

Lemma split_pieces_free (sep : N) (s : jsstring) :
  Forall (λ piece, sep ∉ piece) (split sep s).
Proof.
  induction s as [| c s IH]; simpl.
  - repeat constructor. apply not_elem_of_nil.
  - destruct (N.eqb_spec c sep) as [-> | Hne].
    + constructor; [apply not_elem_of_nil | exact IH].
    + destruct (split sep s) as [| piece pieces].
      * repeat constructor. intros H. apply list_elem_of_singleton in H.
        congruence.
      * inversion IH as [| ? ? Hp Hps]; subst. constructor; [| exact Hps].
        intros H. apply elem_of_cons in H as [H | H]; [congruence | auto].
Qed.

Lemma length_split (sep : N) (s : jsstring) :
  length (split sep s) = S (count_occ N.eq_dec s sep).
Proof.
  induction s as [| c s IH]; simpl; [reflexivity |].
  destruct (N.eqb_spec c sep) as [-> | Hne].
  - destruct (N.eq_dec sep sep); [| congruence]. simpl. rewrite IH. reflexivity.
  - destruct (N.eq_dec c sep); [congruence |].
    destruct (split sep s); simpl in *; [discriminate | exact IH].
Qed.

Lemma split_app (sep : N) (a b : jsstring) :
  split sep (a ++ sep :: b) = split sep a ++ split sep b.
Proof.
  induction a as [| c a IH]; simpl.
  - rewrite N.eqb_refl. reflexivity.
  - rewrite IH. destruct (c =? sep)%N; [reflexivity |].
    destruct (split_cons_piece sep a) as (piece & pieces & ->). reflexivity.
Qed.

Lemma split_free (sep : N) (s : jsstring) : sep ∉ s → split sep s = [s].
Proof.
  induction s as [| c s IH]; intros Hs; simpl; [reflexivity |].
  apply not_elem_of_cons in Hs as [Hne Hs].
  destruct (N.eqb_spec c sep) as [-> | _]; [congruence |].
  rewrite (IH Hs). reflexivity.
Qed.

Lemma fillTexts_imap (x : Z) (lines : list jsstring) :
  ∀ y : nat → Z,
    Game.fillTexts (imap (λ index line, Dom.FillText line x (y index)) lines) =
    imap (λ index line, (line, x, y index)) lines.
Proof.
  induction lines as [| line lines IH]; intros y; simpl; [reflexivity |].
  f_equal. exact (IH (y ∘ S)).
Qed.

Lemma imap_lines (x : Z) (lines : list jsstring) :
  ∀ y : nat → Z,
    map (λ t : jsstring * Z * Z, fst (fst t))
        (imap (λ index line, (line, x, y index)) lines) = lines.
Proof.
  induction lines as [| line lines IH]; intros y; simpl; [reflexivity |].
  f_equal. exact (IH (y ∘ S)).
Qed.

(** X12. [drawText] on a context draws the text line by line: the
    strings of its [fillText] calls, joined by line feeds, are the text;
    there is one call more than the text has line feeds, so at least
    one; the call for line [k] is at x = 12, y = 28 + 22 k and its
    string holds no line feed.  Without a context nothing is drawn. *)
Theorem drawText_draws_the_lines :
  ∀ (width height : Z) (text : jsstring),
    Game.drawText None width height text = None ∧
    ∃ calls : list Dom.CanvasOp,
      Game.drawText (Some []) width height text = Some calls ∧
      join 10 (map (λ t, fst (fst t)) (Game.fillTexts calls)) = text ∧
      length (Game.fillTexts calls) = S (count_occ N.eq_dec text 10%N) ∧
      ∀ (k : nat) (line : jsstring) (x y : Z),
        Game.fillTexts calls !! k = Some (line, x, y) →
        (10%N ∉ line) ∧ x = 12%Z ∧ y = (28 + 22 * Z.of_nat k)%Z.
Proof.
  intros width height text. split; [reflexivity |].
  eexists. split; [reflexivity |]. simpl.
  rewrite (fillTexts_imap 12 (split 10 text) (λ index, (28 + Z.of_nat index * 22)%Z)).
  split; [| split].
  - rewrite imap_lines. apply join_split.
  - rewrite length_imap. apply length_split.
  - intros k line x y Hk. rewrite list_lookup_imap in Hk.
    destruct (split 10 text !! k) as [l |] eqn:Hl; simpl in Hk; [| discriminate].
    injection Hk as <- <- <-.
    split; [| split; [reflexivity | lia]].
    pose proof (split_pieces_free 10 text) as Hfree.
    rewrite Forall_lookup in Hfree. exact (Hfree k l Hl).
Qed.

Lemma drawText_draws_the_lines_witness :
  ∃ calls : list Dom.CanvasOp,
    Game.drawText (Some []) 512 448 [97; 10; 98]%N = Some calls ∧
    join 10 (map (λ t, fst (fst t)) (Game.fillTexts calls)) = [97; 10; 98]%N ∧
    length (Game.fillTexts calls) = S (count_occ N.eq_dec [97; 10; 98]%N 10%N) ∧
    ∀ (k : nat) (line : jsstring) (x y : Z),
      Game.fillTexts calls !! k = Some (line, x, y) →
      (10%N ∉ line) ∧ x = 12%Z ∧ y = (28 + 22 * Z.of_nat k)%Z.
Proof.
  exact (proj2 (drawText_draws_the_lines 512 448 [97; 10; 98]%N)).
Defined.

Lemma no_line_feed (s : jsstring) :
  forallb (λ c, negb (c =? 10)%N) s = true → 10%N ∉ s.
Proof.
  intros H Hin. rewrite forallb_forall in H.
  apply list_elem_of_In in Hin. specialize (H _ Hin). discriminate.
Qed.

Lemma ToString_Some (show : JsVal → jsstring) (v : JsVal) (s : jsstring) :
  Game.ToString show v = Some s → convertible v = true.
Proof.
  unfold Game.ToString. destruct (convertible v); [reflexivity | discriminate].
Qed.

(** X13. When a step request is fulfilled with a body whose
    [action_taken], [reward] and [observation] convert to strings
    without a line feed, the step handler leaves the status line as it
    is and calls [drawText] with the three of them: on a context the
    canvas (512 by 448) is cleared and shows three lines, "Accion: ..."
    at y = 28, "Recompensa: ..." at y = 50 and "Obs: ..." at y = 72,
    each at x = 12; without a context nothing is drawn. *)
Theorem step_summary_is_three_lines :
  ∀ (show : JsVal → jsstring) (st : Game.Panel)
    (data action_taken reward observation : JsVal) (a r o : jsstring),
    get_prop data "action_taken" = Some action_taken →
    get_prop data "reward" = Some reward →
    get_prop data "observation" = Some observation →
    Game.ToString show action_taken = Some a →
    Game.ToString show reward = Some r →
    Game.ToString show observation = Some o →
    10%N ∉ a → 10%N ∉ r → 10%N ∉ o →
    let st1 := (Game.stepButton_settle (Fulfilled data) st).1 in
    Game.status st1 = Game.status st ∧
    Game.paint show (Some []) (Game.canvas st1) =
      Some [Dom.SetFillStyle "#0b0c10"; Dom.FillRect 0 0 512 448;
            Dom.SetFillStyle "#66fcf1"; Dom.SetFont "16px monospace";
            Dom.FillText ((lit "Acci" ++ [243%N] ++ lit "n: ") ++ a) 12 28;
            Dom.FillText (lit "Recompensa: " ++ r) 12 50;
            Dom.FillText (lit "Obs: " ++ o) 12 72] ∧
    Game.paint show None (Game.canvas st1) = None.
Proof.
  intros show st data action_taken reward observation a r o
    Hda Hdr Hdo Hta Htr Hto Ha Hr Ho st1.
  assert (Hst1 : st1 =
            {| Game.sessionId := Game.sessionId st; Game.useAi := Game.useAi st;
               Game.select_value := Game.select_value st;
               Game.status := Game.status st;
               Game.stepButton_disabled := Game.stepButton_disabled st;
               Game.canvas := Game.StepSummary action_taken reward observation |}).
  { subst st1. unfold Game.stepButton_settle. rewrite Hda, Hdr, Hdo.
    rewrite (ToString_Some _ _ _ Hta), (ToString_Some _ _ _ Htr),
      (ToString_Some _ _ _ Hto). reflexivity. }
  rewrite Hst1. simpl. split; [reflexivity |].
  unfold Game.paint, Game.canvas_text. rewrite Hta, Htr, Hto.
  split; [| reflexivity].
  unfold Game.drawText.
  set (p1 := lit "Acci" ++ [243%N] ++ lit "n: ").
  set (p2 := lit "Recompensa: ").
  set (p3 := lit "Obs: ").
  assert (H1 : 10%N ∉ p1 ++ a).
  { rewrite not_elem_of_app. split; [apply no_line_feed; reflexivity | exact Ha]. }
  assert (H2 : 10%N ∉ p2 ++ r).
  { rewrite not_elem_of_app. split; [apply no_line_feed; reflexivity | exact Hr]. }
  assert (H3 : 10%N ∉ p3 ++ o).
  { rewrite not_elem_of_app. split; [apply no_line_feed; reflexivity | exact Ho]. }
  replace (p1 ++ a ++ (10%N :: p2) ++ r ++ (10%N :: p3) ++ o)
    with ((p1 ++ a) ++ 10%N :: ((p2 ++ r) ++ 10%N :: (p3 ++ o))).
  2: { rewrite <- !app_assoc. reflexivity. }
  rewrite !split_app, (split_free _ _ H1), (split_free _ _ H2),
    (split_free _ _ H3).
  reflexivity.
Qed.

Lemma step_summary_is_three_lines_witness :
  let st1 :=
    (Game.stepButton_settle
       (Fulfilled (JObj [("observation", JStr (lit "frame"));
                         ("reward", JNum 7);
                         ("action_taken", JStr (lit "A"))]))
       Game.createGamePanel.1).1 in
  Game.paint (λ _, lit "7") (Some []) (Game.canvas st1) =
    Some [Dom.SetFillStyle "#0b0c10"; Dom.FillRect 0 0 512 448;
          Dom.SetFillStyle "#66fcf1"; Dom.SetFont "16px monospace";
          Dom.FillText ((lit "Acci" ++ [243%N] ++ lit "n: ") ++ lit "A") 12 28;
          Dom.FillText (lit "Recompensa: " ++ lit "7") 12 50;
          Dom.FillText (lit "Obs: " ++ lit "frame") 12 72].
Proof.
  intros st1.
  refine (proj1 (proj2 (step_summary_is_three_lines (λ _, lit "7")
                          Game.createGamePanel.1
                          (JObj [("observation", JStr (lit "frame"));
                                 ("reward", JNum 7);
                                 ("action_taken", JStr (lit "A"))])
                          (JStr (lit "A")) (JNum 7) (JStr (lit "frame"))
                          (lit "A") (lit "7") (lit "frame")
                          eq_refl eq_refl eq_refl eq_refl eq_refl eq_refl
                          _ _ _)));
    apply no_line_feed; reflexivity.
Defined.

(** ** The page *)


















